(** * RemoveBG: the image-processing controller of [src/App.tsx]

    A shallow embedding of the React component [App]: its four state cells,
    the platform resources its handlers touch (the object-URL table, the file
    input behind [fileInputRef], the console, the anchor used for downloads,
    the calls issued to [fetch] and [removeBackground]) and every handler of
    the component, followed by the properties of the controller. *)

From Stdlib Require Import Bool List String NArith Lia.
Import ListNotations.
Local Open Scope string_scope.

(** ** Data *)

(** A [File] (and a [Blob]) as far as the component looks at it: the handlers
    read [file.type], [file.size] and [file.name] and pass the object on.
    Strings are kept as their UTF-8 bytes; the component only compares a
    prefix in ASCII and concatenates. *)
Record Blob := mkBlob { blob_type : string; blob_size : N }.

Record File := mkFile { name : string; type : string; size : N }.

(** [new File([blob], filename, { type: blob.type })] *)
Definition newFile (blob : Blob) (filename : string) : File :=
  {| name := filename; type := blob_type blob; size := blob_size blob |}.

(** The string returned by [URL.createObjectURL]: [blob:<origin>/<uuid>].  Only
    the identity of the entry matters; the uuid is the entry's serial number. *)
Inductive ObjectURL := BlobURL (uuid : nat).

(** [interface ProcessedImage] *)
Record ProcessedImage := mkProcessedImage
  { original : ObjectURL; processed : ObjectURL; filename : string }.

(** What an object URL refers to: the file handed in or the blob handed back. *)
Inductive URLTarget := OfFile (f : File) | OfBlob (b : Blob).

(** How an awaited promise settles. *)
Inductive Settled (A : Type) := Fulfilled (value : A) | Rejected (reason : string).
Arguments Fulfilled {A} value.
Arguments Rejected {A} reason.

(** The [Response] of [fetch]: the status line and how [response.blob()]
    settles.  [fetch] rejects on a network error only; an HTTP error status
    arrives as a fulfilled response whose [ok] is false. *)
Record Response := mkResponse { status : N; body : Settled Blob }.

Definition ok (r : Response) : bool := (200 <=? status r)%N && (status r <=? 299)%N.

(** ** The component's state and its surroundings *)

Record World := mkWorld
  { (* useState *)
    isDragging : bool;
    isProcessing : bool;
    processedImage : option ProcessedImage;
    error : option string;
    (* fileInputRef.current: the value of the <input> of the upload panel,
       None for null (the panel is not mounted) *)
    fileInput : option string;
    (* the object-URL table of the document, newest first *)
    objectURLs : list (ObjectURL * URLTarget);
    urlSerial : nat;
    (* calls that left the component, newest first *)
    removeBackgroundCalls : list File;
    fetchCalls : list string;
    consoleErrors : list string;
    downloads : list (ObjectURL * string);
    defaultsPrevented : nat }.

(** The component as first rendered on a fresh page. *)
Definition initialWorld : World :=
  {| isDragging := false; isProcessing := false; processedImage := None;
     error := None; fileInput := Some ""; objectURLs := []; urlSerial := 0;
     removeBackgroundCalls := []; fetchCalls := []; consoleErrors := [];
     downloads := []; defaultsPrevented := 0 |}.

(** [sampleImages] *)
Definition sampleImages : list (string * string) :=
  [("https://ugc.same-assets.com/OTshhTxyo3h08kkKwkcfgkfI49AwJiYU.jpeg",
    "sample-portrait-1.jpg");
   ("https://ugc.same-assets.com/do4oamYjSeZV6RjAnhlprWGZEntF3cTB.jpeg",
    "sample-portrait-2.jpg");
   ("https://ugc.same-assets.com/EAaFTepZgfyGkWXOiJJaBMW3hPVySIrc.jpeg",
    "sample-portrait-3.jpg")].

(** The messages the handlers show. *)
Definition msgInvalidType : string := "请选择有效的图片文件（PNG、JPG等）".
Definition msgTooLarge : string := "图片大小必须小于10MB".
Definition msgProcessingFailed : string := "背景移除失败，请尝试其他图片。".
Definition msgSampleFailed : string := "加载样本图片失败，请尝试上传您自己的图片。".
Definition logProcessing : string := "处理图片出错:".
Definition logSample : string := "加载样本图片出错:".
Definition downloadPrefix : string := "已移除背景-".

Definition maxBytes : N := 10 * 1024 * 1024.

(** ** A state monad for the handlers

    A handler body runs to its next [await] without interruption; it is a
    computation over [World]. *)
Definition M (A : Type) : Type := World -> A * World.

Definition ret {A} (a : A) : M A := fun w => (a, w).
Definition bind {A B} (m : M A) (k : A -> M B) : M B :=
  fun w => let (a, w') := m w in k a w'.
Definition exec {A} (m : M A) (w : World) : World := snd (m w).
Definition modify (f : World -> World) : M unit := fun w => (tt, f w).

Declare Scope handler_scope.
Delimit Scope handler_scope with handler.
Notation "x <- m ;; k" := (bind m (fun x => k))
  (at level 61, m at next level, right associativity) : handler_scope.
Notation "m ;; k" := (bind m (fun _ => k))
  (at level 61, right associativity) : handler_scope.
Local Open Scope handler_scope.

(** *** The state setters and the platform calls *)

Definition setIsDragging (b : bool) : M unit := modify (fun w =>
  mkWorld b (isProcessing w) (processedImage w) (error w) (fileInput w)
    (objectURLs w) (urlSerial w) (removeBackgroundCalls w) (fetchCalls w)
    (consoleErrors w) (downloads w) (defaultsPrevented w)).

Definition setIsProcessing (b : bool) : M unit := modify (fun w =>
  mkWorld (isDragging w) b (processedImage w) (error w) (fileInput w)
    (objectURLs w) (urlSerial w) (removeBackgroundCalls w) (fetchCalls w)
    (consoleErrors w) (downloads w) (defaultsPrevented w)).

Definition setProcessedImage (p : option ProcessedImage) : M unit := modify (fun w =>
  mkWorld (isDragging w) (isProcessing w) p (error w) (fileInput w)
    (objectURLs w) (urlSerial w) (removeBackgroundCalls w) (fetchCalls w)
    (consoleErrors w) (downloads w) (defaultsPrevented w)).

Definition setError (e : option string) : M unit := modify (fun w =>
  mkWorld (isDragging w) (isProcessing w) (processedImage w) e (fileInput w)
    (objectURLs w) (urlSerial w) (removeBackgroundCalls w) (fetchCalls w)
    (consoleErrors w) (downloads w) (defaultsPrevented w)).

(** [if (fileInputRef.current) fileInputRef.current.value = ''] *)
Definition clearFileInput : M unit := modify (fun w =>
  mkWorld (isDragging w) (isProcessing w) (processedImage w) (error w)
    (match fileInput w with Some _ => Some "" | None => None end)
    (objectURLs w) (urlSerial w) (removeBackgroundCalls w) (fetchCalls w)
    (consoleErrors w) (downloads w) (defaultsPrevented w)).

(** [URL.createObjectURL]: a new entry in the table, under a new URL. *)
Definition createObjectURL (t : URLTarget) : M ObjectURL := fun w =>
  let u := BlobURL (urlSerial w) in
  (u, mkWorld (isDragging w) (isProcessing w) (processedImage w) (error w)
        (fileInput w) ((u, t) :: objectURLs w) (S (urlSerial w))
        (removeBackgroundCalls w) (fetchCalls w) (consoleErrors w)
        (downloads w) (defaultsPrevented w)).

(** The call [removeBackground(file)] leaving the component. *)
Definition callRemoveBackground (f : File) : M unit := modify (fun w =>
  mkWorld (isDragging w) (isProcessing w) (processedImage w) (error w)
    (fileInput w) (objectURLs w) (urlSerial w) (f :: removeBackgroundCalls w)
    (fetchCalls w) (consoleErrors w) (downloads w) (defaultsPrevented w)).

(** The call [fetch(imageUrl)] leaving the component. *)
Definition callFetch (url : string) : M unit := modify (fun w =>
  mkWorld (isDragging w) (isProcessing w) (processedImage w) (error w)
    (fileInput w) (objectURLs w) (urlSerial w) (removeBackgroundCalls w)
    (url :: fetchCalls w) (consoleErrors w) (downloads w) (defaultsPrevented w)).

Definition consoleError (label : string) : M unit := modify (fun w =>
  mkWorld (isDragging w) (isProcessing w) (processedImage w) (error w)
    (fileInput w) (objectURLs w) (urlSerial w) (removeBackgroundCalls w)
    (fetchCalls w) (label :: consoleErrors w) (downloads w) (defaultsPrevented w)).

(** A click on a temporary [<a href download>]: the browser saves [href]
    under the suggested name; the element is added and removed again. *)
Definition clickLink (href : ObjectURL) (download : string) : M unit := modify (fun w =>
  mkWorld (isDragging w) (isProcessing w) (processedImage w) (error w)
    (fileInput w) (objectURLs w) (urlSerial w) (removeBackgroundCalls w)
    (fetchCalls w) (consoleErrors w) ((href, download) :: downloads w)
    (defaultsPrevented w)).

Definition preventDefault : M unit := modify (fun w =>
  mkWorld (isDragging w) (isProcessing w) (processedImage w) (error w)
    (fileInput w) (objectURLs w) (urlSerial w) (removeBackgroundCalls w)
    (fetchCalls w) (consoleErrors w) (downloads w) (S (defaultsPrevented w))).

(** The object URLs alive in the document.  The component has no call to
    [URL.revokeObjectURL]: entries are only ever added. *)
Definition liveURLs (w : World) : list ObjectURL := map fst (objectURLs w).

(** ** The handlers *)

(** [file.type.startsWith('image/')] *)
Definition isImageType (f : File) : bool := String.prefix "image/" (type f).

(** [file.size > 10 * 1024 * 1024] *)
Definition isTooLarge (f : File) : bool := (maxBytes <? size f)%N.

(** [processImage] is suspended once, at [await removeBackground(file)].  A
    [Run] is that suspended call: the variables its continuation still reads. *)
Record Run := mkRun { run_file : File; run_originalUrl : ObjectURL }.

(** [processImage], from its entry to the [await]: [None] when it returned
    before the call, [Some run] when the call is in flight. *)
Definition processImage (file : File) : M (option Run) :=
  if negb (isImageType file) then
    setError (Some msgInvalidType) ;;
    ret None
  else if isTooLarge file then
    setError (Some msgTooLarge) ;;
    ret None
  else
    setError None ;;
    setIsProcessing true ;;
    setProcessedImage None ;;
    originalUrl <- createObjectURL (OfFile file) ;;
    callRemoveBackground file ;;
    ret (Some (mkRun file originalUrl)).

(** [processImage], from the settlement of [removeBackground] to its end:
    the rest of the [try], or the [catch], and then the [finally]. *)
Definition processImage_settled (r : Run) (o : Settled Blob) : M unit :=
  match o with
  | Fulfilled blob =>
      processedUrl <- createObjectURL (OfBlob blob) ;;
      setProcessedImage (Some {| original := run_originalUrl r;
                                 processed := processedUrl;
                                 filename := name (run_file r) |})
  | Rejected _ =>
      consoleError logProcessing ;;
      setError (Some msgProcessingFailed)
  end ;;
  setIsProcessing false.

Definition handleDragOver : M unit :=
  preventDefault ;;
  setIsDragging true.

Definition handleDragLeave : M unit :=
  preventDefault ;;
  setIsDragging false.

(** [e.dataTransfer.files]: only [files[0]] is used. *)
Definition handleDrop (files : list File) : M (option Run) :=
  preventDefault ;;
  setIsDragging false ;;
  match files with
  | file :: _ => processImage file
  | [] => ret None
  end.

(** [e.target.files] may be null. *)
Definition handleFileSelect (files : option (list File)) : M (option Run) :=
  match files with
  | Some (file :: _) => processImage file
  | _ => ret None
  end.

(** [handleSampleImageClick] is suspended at [await fetch(imageUrl)] (and at
    [await response.blob()], between which it does nothing).  A [Fetch] is the
    suspended handler: it still reads [filename]. *)
Record Fetch := mkFetch { fetch_filename : string }.

Definition handleSampleImageClick (imageUrl : string) (filename : string) : M Fetch :=
  setError None ;;
  setIsProcessing true ;;
  setProcessedImage None ;;
  callFetch imageUrl ;;
  ret (mkFetch filename).

(** From the settlement of the fetch on: the response is not inspected, its
    body becomes the file; a rejection of either promise lands in the [catch].
    [processImage] handles its own failures, so nothing follows its [await]. *)
Definition handleSampleImageClick_settled (p : Fetch) (o : Settled Response)
  : M (option Run) :=
  match o with
  | Fulfilled response =>
      match body response with
      | Fulfilled blob => processImage (newFile blob (fetch_filename p))
      | Rejected _ =>
          consoleError logSample ;;
          setError (Some msgSampleFailed) ;;
          setIsProcessing false ;;
          ret None
      end
  | Rejected _ =>
      consoleError logSample ;;
      setError (Some msgSampleFailed) ;;
      setIsProcessing false ;;
      ret None
  end.

(** [handleDownload]: nothing without a result. *)
Definition handleDownload : M unit := fun w =>
  match processedImage w with
  | None => (tt, w)
  | Some p => clickLink (processed p) (downloadPrefix ++ filename p) w
  end.

Definition handleReset : M unit :=
  setProcessedImage None ;;
  setError None ;;
  clearFileInput.

(** [file] gets past both checks at the head of [processImage]. *)
Definition passesValidation (f : File) : bool :=
  isImageType f && negb (isTooLarge f).

(** ** The event loop

    Between two handler bodies any other event may be dispatched.  A [Machine]
    is the component together with the promises it is waiting for. *)
Record Machine := mkMachine
  { world : World; runs : list Run; fetches : list Fetch }.

Definition initialMachine : Machine :=
  {| world := initialWorld; runs := []; fetches := [] |}.

Inductive Op :=
| DragOver
| DragLeave
| Drop (files : list File)
| FileSelect (files : option (list File))
| SampleClick (imageUrl filename : string)
| FetchSettles (i : nat) (o : Settled Response)
| RunSettles (i : nat) (o : Settled Blob)
| Download
| Reset.

Fixpoint remove_nth {A} (i : nat) (l : list A) : list A :=
  match l, i with
  | [], _ => []
  | _ :: l', O => l'
  | x :: l', S i' => x :: remove_nth i' l'
  end.

Definition addRun (r : option Run) (l : list Run) : list Run :=
  match r with Some run => run :: l | None => l end.

(** One event: the handler runs on the world, a call it leaves in flight is
    recorded, a settlement resumes the handler that waits for it.  [None] when
    the promise named by a settlement does not exist. *)
Definition step (m : Machine) (op : Op) : option Machine :=
  let w := world m in
  match op with
  | DragOver => Some (mkMachine (exec handleDragOver w) (runs m) (fetches m))
  | DragLeave => Some (mkMachine (exec handleDragLeave w) (runs m) (fetches m))
  | Drop files =>
      let (r, w') := handleDrop files w in
      Some (mkMachine w' (addRun r (runs m)) (fetches m))
  | FileSelect files =>
      let (r, w') := handleFileSelect files w in
      Some (mkMachine w' (addRun r (runs m)) (fetches m))
  | SampleClick imageUrl filename =>
      let (p, w') := handleSampleImageClick imageUrl filename w in
      Some (mkMachine w' (runs m) (p :: fetches m))
  | FetchSettles i o =>
      match nth_error (fetches m) i with
      | Some p =>
          let (r, w') := handleSampleImageClick_settled p o w in
          Some (mkMachine w' (addRun r (runs m)) (remove_nth i (fetches m)))
      | None => None
      end
  | RunSettles i o =>
      match nth_error (runs m) i with
      | Some r =>
          Some (mkMachine (exec (processImage_settled r o) w)
                  (remove_nth i (runs m)) (fetches m))
      | None => None
      end
  | Download => Some (mkMachine (exec handleDownload w) (runs m) (fetches m))
  | Reset => Some (mkMachine (exec handleReset w) (runs m) (fetches m))
  end.

(** The states the component can be in after events that a [gate] lets pass. *)
Inductive reachable (gate : Machine -> Op -> bool) : Machine -> Prop :=
| reachable_initial : reachable gate initialMachine
| reachable_step m op m' :
    reachable gate m -> gate m op = true -> step m op = Some m' ->
    reachable gate m'.

Definition anyOp (_ : Machine) (_ : Op) : bool := true.

(** The file an input event hands to [processImage], if any. *)
Definition inputFile (op : Op) : option File :=
  match op with
  | Drop (file :: _) => Some file
  | FileSelect (Some (file :: _)) => Some file
  | _ => None
  end.

(** Events in turn: an input (drop, selection, sample click) arrives only
    while nothing is being processed, a file that fails validation only while
    no result is stored, and a sample whose fetch is fulfilled is a file that
    passes validation. *)
Definition inTurn (m : Machine) (op : Op) : bool :=
  let w := world m in
  match op with
  | Drop _ | FileSelect _ =>
      match inputFile op with
      | Some file =>
          negb (isProcessing w) &&
          (passesValidation file ||
           match processedImage w with None => true | Some _ => false end)
      | None => true
      end
  | SampleClick _ _ => negb (isProcessing w)
  | FetchSettles i (Fulfilled response) =>
      match nth_error (fetches m) i, body response with
      | Some p, Fulfilled blob => passesValidation (newFile blob (fetch_filename p))
      | _, _ => true
      end
  | _ => true
  end.

(** What the view renders: the upload panel (with the sample gallery and the
    error banner), the spinner, the result panel (with download and reset). *)
Definition showsUpload (w : World) : bool :=
  match processedImage w with None => negb (isProcessing w) | Some _ => false end.
Definition showsSpinner (w : World) : bool := isProcessing w.
Definition showsResult (w : World) : bool :=
  match processedImage w with None => false | Some _ => true end.

(** The events the rendered view can deliver: inputs come from the upload
    panel, download and reset from the result panel; promises settle when
    they settle. *)
Definition offered (m : Machine) (op : Op) : bool :=
  match op with
  | DragOver | DragLeave | Drop _ | FileSelect _ | SampleClick _ _ =>
      showsUpload (world m)
  | Download | Reset => showsResult (world m)
  | FetchSettles _ _ | RunSettles _ _ => true
  end.

(** An error message shown together with neither the spinner nor a result. *)
Definition errorAlone (w : World) : Prop :=
  error w <> None -> isProcessing w = false /\ processedImage w = None.

(** What holds of the component between events taken in turn: while the flag
    is set exactly one promise is awaited and neither an error nor a result is
    stored; while it is clear nothing is awaited and an error excludes a
    result. *)
Definition turnInv (m : Machine) : Prop :=
  (isProcessing (world m) = true ->
     error (world m) = None /\ processedImage (world m) = None /\
     List.length (runs m) + List.length (fetches m) = 1) /\
  (isProcessing (world m) = false ->
     runs m = [] /\ fetches m = [] /\
     (error (world m) <> None -> processedImage (world m) = None)).

(** A list of events in a row, each let through by the [gate]; [None] when
    one is not, or names a promise that does not exist. *)
Fixpoint gatedSteps (gate : Machine -> Op -> bool) (m : Machine) (ops : list Op)
  : option Machine :=
  match ops with
  | [] => Some m
  | op :: ops' =>
      if gate m op then
        match step m op with
        | Some m' => gatedSteps gate m' ops'
        | None => None
        end
      else None
  end.

(** ** What is kept between events *)

(** The number of promises the component waits for. *)
Definition pending (m : Machine) : nat :=
  List.length (runs m) + List.length (fetches m).

(** The three panels of the view, in the order of the JSX. *)
Definition panels (w : World) : bool * bool * bool :=
  (showsUpload w, showsSpinner w, showsResult w).

Definition serialOf (u : ObjectURL) : nat :=
  match u with BlobURL uuid => uuid end.

(** The object-URL table and the URLs the component holds on to: no URL
    twice, every URL older than the next serial, the original of every run in
    flight and both URLs of a stored result in the table. *)
Definition urlsKept (m : Machine) : Prop :=
  NoDup (liveURLs (world m)) /\
  (forall u, In u (liveURLs (world m)) -> serialOf u < urlSerial (world m)) /\
  (forall r, In r (runs m) -> In (run_originalUrl r) (liveURLs (world m))) /\
  (forall p, processedImage (world m) = Some p ->
     In (original p) (liveURLs (world m)) /\
     In (processed p) (liveURLs (world m)) /\
     original p <> processed p).

(** What holds between the events the view offers: nothing is awaited while
    the flag is clear, at most one promise is awaited, and then neither an
    error nor a result is stored; a stored result has no error beside it and
    the flag clear. *)
Definition viewInv (m : Machine) : Prop :=
  (isProcessing (world m) = false -> pending m = 0) /\
  (pending m <> 0 ->
     pending m = 1 /\ error (world m) = None /\ processedImage (world m) = None) /\
  (processedImage (world m) <> None ->
     error (world m) = None /\ isProcessing (world m) = false).

(** The events that start nothing: drag-over, drag-leave and download. *)
Definition passive (op : Op) : bool :=
  match op with
  | DragOver | DragLeave | Download => true
  | _ => false
  end.

(** Two machines that differ at most in what passive events write: the
    dragging flag, the count of prevented defaults and the downloads. *)
Definition sameButPassive (m1 m2 : Machine) : Prop :=
  runs m1 = runs m2 /\
  fetches m1 = fetches m2 /\
  isProcessing (world m1) = isProcessing (world m2) /\
  processedImage (world m1) = processedImage (world m2) /\
  error (world m1) = error (world m2) /\
  fileInput (world m1) = fileInput (world m2) /\
  objectURLs (world m1) = objectURLs (world m2) /\
  urlSerial (world m1) = urlSerial (world m2) /\
  removeBackgroundCalls (world m1) = removeBackgroundCalls (world m2) /\
  fetchCalls (world m1) = fetchCalls (world m2) /\
  consoleErrors (world m1) = consoleErrors (world m2).

(** ** Scenarios *)
Module Scenario.

(** A 2 MiB JPEG, and the cut-out [removeBackground] answers with. *)
Definition photo : File := mkFile "photo.jpg" "image/jpeg" 2097152.
Definition cutout : Blob := mkBlob "image/png" 1500000.

(** A text file renamed to [.png], an 11 MiB PNG, an 11 MiB archive. *)
Definition notes : File := mkFile "notes.png" "text/plain" 120.
Definition poster : File := mkFile "poster.png" "image/png" 11534336.
Definition archive : File := mkFile "backup.zip" "application/zip" 11534336.

(** The first sample, answered with [404 Not Found] and an HTML page. *)
Definition sampleUrl : string := fst (hd ("", "") sampleImages).
Definition sampleName : string := snd (hd ("", "") sampleImages).
Definition notFound : Response :=
  mkResponse 404 (Fulfilled (mkBlob "text/html" 153)).

(** The world in which [processImage photo] waits for [removeBackground]. *)
Definition photoRun : Run := mkRun photo (BlobURL 0).
Definition processing : World := exec (processImage photo) initialWorld.

(** ... and the world after the call was fulfilled: a result is shown. *)
Definition shown : World :=
  exec (processImage_settled photoRun (Fulfilled cutout)) processing.

(** A second photo, processed while the first result is shown. *)
Definition second : File := mkFile "beach.jpg" "image/jpeg" 3145728.
Definition secondRun : Run := mkRun second (BlobURL 2).
Definition processingSecond : World := exec (processImage second) shown.

(** The sample click, and the world its fetch meets on arrival. *)
Definition clicked : World :=
  exec (handleSampleImageClick sampleUrl sampleName) initialWorld.

(** The same click while the result of the photo is stored. *)
Definition clickedOverResult : World :=
  exec (handleSampleImageClick sampleUrl sampleName) shown.

(** A session taken in turn: a sample that fails to load, an upload that
    succeeds, a reset, and a drop of a file that is too large. *)
Definition session : list Op :=
  [SampleClick sampleUrl sampleName;
   FetchSettles 0 (Rejected "Failed to fetch");
   FileSelect (Some [photo]);
   RunSettles 0 (Fulfilled cutout);
   Reset;
   Drop [poster]].

(** An upload that succeeds, and a text file selected over its result. *)
Definition overResult : list Op :=
  [FileSelect (Some [photo]);
   RunSettles 0 (Fulfilled cutout);
   FileSelect (Some [notes])].

(** Events out of turn: a second file dropped while the first is processed,
    the calls settling in the other order, a reset in between. *)
Definition raced : list Op :=
  [FileSelect (Some [photo]);
   Drop [second; notes];
   RunSettles 1 (Fulfilled cutout);
   Reset;
   RunSettles 0 (Rejected "out of memory");
   Drop [second];
   RunSettles 0 (Fulfilled cutout)].

(** A visit through the view: a drag, a bad drop, an upload, a download. *)
Definition visit : list Op :=
  [DragOver;
   Drop [notes];
   DragOver;
   DragLeave;
   FileSelect (Some [photo]);
   RunSettles 0 (Fulfilled cutout);
   Download].

(** The sample answered with 404. *)
Definition spinning : list Op :=
  [SampleClick sampleUrl sampleName;
   FetchSettles 0 (Fulfilled notFound)].

(** A 404 whose body is an image all the same. *)
Definition notFoundImage : Response :=
  mkResponse 404 (Fulfilled (mkBlob "image/png" 2048)).

End Scenario.

(** ** Properties *)

(** *** Running the handlers *)

(** The early return of the media-type check. *)
Lemma processImage_invalid_type (f : File) (w : World) :
  isImageType f = false ->
  processImage f w = (None, exec (setError (Some msgInvalidType)) w).
Proof.
  intros Htype. unfold processImage. rewrite Htype. reflexivity.
Qed.

(** The early return of the size check. *)
Lemma processImage_too_large (f : File) (w : World) :
  isImageType f = true -> isTooLarge f = true ->
  processImage f w = (None, exec (setError (Some msgTooLarge)) w).
Proof.
  intros Htype Hsize. unfold processImage. rewrite Htype, Hsize. reflexivity.
Qed.

(** A file that passes both checks: the state is cleared, the original gets
    its object URL and the call is issued. *)
Lemma processImage_accepted (f : File) (w : World) :
  passesValidation f = true ->
  processImage f w =
    (Some (mkRun f (BlobURL (urlSerial w))),
     mkWorld (isDragging w) true None None (fileInput w)
       ((BlobURL (urlSerial w), OfFile f) :: objectURLs w) (S (urlSerial w))
       (f :: removeBackgroundCalls w) (fetchCalls w) (consoleErrors w)
       (downloads w) (defaultsPrevented w)).
Proof.
  unfold passesValidation. intros Hok.
  apply andb_true_iff in Hok as [Htype Hsize].
  apply negb_true_iff in Hsize.
  unfold processImage. rewrite Htype, Hsize. reflexivity.
Qed.

(** [processImage] leaves a call in flight exactly for the files that pass. *)
Lemma processImage_issues_call (f : File) (w w1 : World) (r : Run) :
  processImage f w = (Some r, w1) -> passesValidation f = true.
Proof.
  unfold processImage, passesValidation.
  destruct (isImageType f); [destruct (isTooLarge f)|]; simpl;
    try reflexivity; discriminate.
Qed.

Lemma passesValidation_false (f : File) :
  passesValidation f = false ->
  isImageType f = false \/ (isImageType f = true /\ isTooLarge f = true).
Proof.
  unfold passesValidation.
  destruct (isImageType f), (isTooLarge f); simpl; intros; auto; discriminate.
Qed.

Lemma isTooLarge_iff (f : File) :
  isTooLarge f = true <-> (10485760 < size f)%N.
Proof.
  unfold isTooLarge. rewrite N.ltb_lt. reflexivity.
Qed.

Lemma messages_differ : msgInvalidType <> msgTooLarge.
Proof. discriminate. Qed.

(** *** Validation *)

(** C5: a file whose media type does not start with [image/] is rejected with
    the invalid-type message; [removeBackground] is not called, and the run
    writes no state cell but [error]: it does not set the processing flag. *)
Theorem C5_invalid_type_rejected (f : File) (w : World) :
  String.prefix "image/" (type f) = false ->
  exists w',
    processImage f w = (None, w') /\
    w' = exec (setError (Some msgInvalidType)) w /\
    error w' = Some msgInvalidType /\
    removeBackgroundCalls w' = removeBackgroundCalls w /\
    isProcessing w' = isProcessing w.
Proof.
  intros Htype. eexists. split.
  - apply processImage_invalid_type. exact Htype.
  - repeat split.
Qed.

Lemma C5_invalid_type_rejected_witness :
  String.prefix "image/" (type Scenario.notes) = false /\
  exists w',
    processImage Scenario.notes Scenario.shown = (None, w') /\
    w' = exec (setError (Some msgInvalidType)) Scenario.shown /\
    error w' = Some msgInvalidType /\
    removeBackgroundCalls w' = removeBackgroundCalls Scenario.shown /\
    isProcessing w' = isProcessing Scenario.shown.
Proof.
  split; [reflexivity | apply C5_invalid_type_rejected; reflexivity].
Defined.

(** C6: an image file of more than 10,485,760 bytes is rejected with the
    too-large message; [removeBackground] is not called, and the run writes no
    state cell but [error]: the processing flag does not become true. *)
Theorem C6_too_large_rejected (f : File) (w : World) :
  String.prefix "image/" (type f) = true ->
  (10485760 < size f)%N ->
  exists w',
    processImage f w = (None, w') /\
    w' = exec (setError (Some msgTooLarge)) w /\
    error w' = Some msgTooLarge /\
    removeBackgroundCalls w' = removeBackgroundCalls w /\
    isProcessing w' = isProcessing w /\
    (isProcessing w = false -> isProcessing w' = false).
Proof.
  intros Htype Hsize. eexists. split.
  - apply processImage_too_large; [exact Htype | apply isTooLarge_iff, Hsize].
  - repeat split. intros Hidle. exact Hidle.
Qed.

Lemma C6_too_large_rejected_witness :
  String.prefix "image/" (type Scenario.poster) = true /\
  (10485760 < size Scenario.poster)%N /\
  exists w',
    processImage Scenario.poster initialWorld = (None, w') /\
    w' = exec (setError (Some msgTooLarge)) initialWorld /\
    error w' = Some msgTooLarge /\
    removeBackgroundCalls w' = removeBackgroundCalls initialWorld /\
    isProcessing w' = isProcessing initialWorld /\
    (isProcessing initialWorld = false -> isProcessing w' = false).
Proof.
  split; [reflexivity | split; [reflexivity |]].
  apply C6_too_large_rejected; reflexivity.
Defined.

(** C10: the media type is checked before the size: a file that fails both
    checks gets the invalid-type message, not the too-large one. *)
Theorem C10_type_checked_first (f : File) (w : World) :
  String.prefix "image/" (type f) = false ->
  (10485760 < size f)%N ->
  error (exec (processImage f) w) = Some msgInvalidType /\
  error (exec (processImage f) w) <> Some msgTooLarge.
Proof.
  intros Htype _. unfold exec.
  rewrite (processImage_invalid_type f w Htype). simpl. split.
  - reflexivity.
  - intros Heq. apply messages_differ. congruence.
Qed.

Lemma C10_type_checked_first_witness :
  String.prefix "image/" (type Scenario.archive) = false /\
  (10485760 < size Scenario.archive)%N /\
  error (exec (processImage Scenario.archive) initialWorld) = Some msgInvalidType /\
  error (exec (processImage Scenario.archive) initialWorld) <> Some msgTooLarge.
Proof.
  split; [reflexivity | split; [reflexivity |]].
  apply C10_type_checked_first; reflexivity.
Defined.

(** C7, as the code has it: when a file that fails validation is handed to
    [processImage] while the processing flag is false (a selection or a drop),
    the error message is written and nothing else: the stored result is not
    cleared and the flag is left false. *)
Theorem C7_validation_failure_sets_error_only (f : File) (w : World) :
  passesValidation f = false ->
  isProcessing w = false ->
  exists msg,
    (msg = msgInvalidType \/ msg = msgTooLarge) /\
    processImage f w = (None, exec (setError (Some msg)) w) /\
    processedImage (exec (processImage f) w) = processedImage w /\
    isProcessing (exec (processImage f) w) = false.
Proof.
  intros Hfail Hidle.
  destruct (passesValidation_false f Hfail) as [Htype | [Htype Hsize]].
  - exists msgInvalidType. unfold exec at 2 3.
    rewrite (processImage_invalid_type f w Htype).
    repeat split; auto.
  - exists msgTooLarge. unfold exec at 2 3.
    rewrite (processImage_too_large f w Htype Hsize).
    repeat split; auto.
Qed.

Lemma C7_validation_failure_sets_error_only_witness :
  passesValidation Scenario.poster = false /\
  isProcessing Scenario.shown = false /\
  exists msg,
    (msg = msgInvalidType \/ msg = msgTooLarge) /\
    processImage Scenario.poster Scenario.shown =
      (None, exec (setError (Some msg)) Scenario.shown) /\
    processedImage (exec (processImage Scenario.poster) Scenario.shown) =
      processedImage Scenario.shown /\
    isProcessing (exec (processImage Scenario.poster) Scenario.shown) = false.
Proof.
  split; [reflexivity | split; [reflexivity |]].
  apply C7_validation_failure_sets_error_only; reflexivity.
Defined.

(** C7, as stated, fails on the sample path: the click handler has cleared
    the stored result and set the processing flag before the fetched file
    reaches validation, and the early return leaves the flag set. *)
Lemma C7_counterexample :
  processedImage Scenario.shown =
    Some (mkProcessedImage (BlobURL 0) (BlobURL 1) "photo.jpg") /\
  passesValidation (newFile (mkBlob "text/html" 153) Scenario.sampleName) = false /\
  processedImage
    (exec (handleSampleImageClick_settled (mkFetch Scenario.sampleName)
             (Fulfilled Scenario.notFound)) Scenario.clickedOverResult) = None /\
  isProcessing
    (exec (handleSampleImageClick_settled (mkFetch Scenario.sampleName)
             (Fulfilled Scenario.notFound)) Scenario.clickedOverResult) = true.
Proof. repeat split. Qed.

(** *** Download and reset *)

(** C8: with a result present, the download saves the processed image under
    the fixed prefix followed by the original file name, and no state cell
    changes: the processing flag, the result and the error are as before. *)
Theorem C8_download_names_file (w : World) (p : ProcessedImage) :
  processedImage w = Some p ->
  downloads (exec handleDownload w) =
    (processed p, downloadPrefix ++ filename p) :: downloads w /\
  isProcessing (exec handleDownload w) = isProcessing w /\
  processedImage (exec handleDownload w) = processedImage w /\
  error (exec handleDownload w) = error w /\
  isDragging (exec handleDownload w) = isDragging w.
Proof.
  intros Hshown. unfold exec, handleDownload. rewrite Hshown. simpl.
  rewrite Hshown. repeat split.
Qed.

Lemma C8_download_names_file_witness :
  processedImage Scenario.shown =
    Some (mkProcessedImage (BlobURL 0) (BlobURL 1) "photo.jpg") /\
  downloads (exec handleDownload Scenario.shown) =
    [(BlobURL 1, downloadPrefix ++ "photo.jpg")].
Proof.
  split; [reflexivity |].
  exact (proj1 (C8_download_names_file Scenario.shown
                  (mkProcessedImage (BlobURL 0) (BlobURL 1) "photo.jpg")
                  eq_refl)).
Defined.

(** Reset writes the result, the error and the file input, nothing else. *)
Lemma handleReset_world (w : World) :
  exec handleReset w =
    mkWorld (isDragging w) (isProcessing w) None None
      (match fileInput w with Some _ => Some "" | None => None end)
      (objectURLs w) (urlSerial w) (removeBackgroundCalls w) (fetchCalls w)
      (consoleErrors w) (downloads w) (defaultsPrevented w).
Proof. reflexivity. Qed.

(** C9: reset is idempotent: a second reset in a row changes nothing, leaves
    no error, and releases no object URL (the table is as it was). *)
Theorem C9_reset_idempotent (w : World) :
  exec handleReset (exec handleReset w) = exec handleReset w /\
  error (exec handleReset (exec handleReset w)) = None /\
  objectURLs (exec handleReset (exec handleReset w)) =
    objectURLs (exec handleReset w).
Proof.
  rewrite !handleReset_world. simpl.
  destruct (fileInput w); repeat split.
Qed.

(** *** A processing run *)

(** The continuation of a run touches neither the result nor the URL table
    when [removeBackground] rejects. *)
Lemma processImage_rejected_world (r : Run) (reason : string) (w : World) :
  exec (processImage_settled r (Rejected reason)) w =
    mkWorld (isDragging w) false (processedImage w) (Some msgProcessingFailed)
      (fileInput w) (objectURLs w) (urlSerial w) (removeBackgroundCalls w)
      (fetchCalls w) (logProcessing :: consoleErrors w) (downloads w)
      (defaultsPrevented w).
Proof. reflexivity. Qed.

(** ... and adds one URL and stores the result when it is fulfilled. *)
Lemma processImage_fulfilled_world (r : Run) (blob : Blob) (w : World) :
  exec (processImage_settled r (Fulfilled blob)) w =
    mkWorld (isDragging w) false
      (Some (mkProcessedImage (run_originalUrl r) (BlobURL (urlSerial w))
               (name (run_file r))))
      (error w) (fileInput w)
      ((BlobURL (urlSerial w), OfBlob blob) :: objectURLs w) (S (urlSerial w))
      (removeBackgroundCalls w) (fetchCalls w) (consoleErrors w) (downloads w)
      (defaultsPrevented w).
Proof. reflexivity. Qed.

(** C1, as the code has it: a successful run creates exactly two object URLs,
    distinct and both held by the stored result; a reset that follows clears
    the result and the error and releases neither URL: both stay alive. *)
Theorem C1_two_urls_kept_after_reset
  (f : File) (blob : Blob) (w w1 : World) (r : Run) :
  processImage f w = (Some r, w1) ->
  exists u1 u2,
    u1 <> u2 /\
    processedImage (exec (processImage_settled r (Fulfilled blob)) w1) =
      Some (mkProcessedImage u1 u2 (name f)) /\
    liveURLs (exec (processImage_settled r (Fulfilled blob)) w1) =
      u2 :: u1 :: liveURLs w /\
    processedImage
      (exec handleReset (exec (processImage_settled r (Fulfilled blob)) w1)) = None /\
    error
      (exec handleReset (exec (processImage_settled r (Fulfilled blob)) w1)) = None /\
    liveURLs
      (exec handleReset (exec (processImage_settled r (Fulfilled blob)) w1)) =
      u2 :: u1 :: liveURLs w.
Proof.
  intros Hrun.
  pose proof (processImage_issues_call f w w1 r Hrun) as Hok.
  rewrite (processImage_accepted f w Hok) in Hrun.
  injection Hrun as Hr Hw1. subst r w1.
  exists (BlobURL (urlSerial w)), (BlobURL (S (urlSerial w))).
  rewrite handleReset_world, processImage_fulfilled_world. simpl.
  repeat split.
  intros Heq. injection Heq as Heq. lia.
Qed.

Lemma C1_two_urls_kept_after_reset_witness :
  processImage Scenario.photo initialWorld =
    (Some Scenario.photoRun, Scenario.processing) /\
  exists u1 u2,
    u1 <> u2 /\
    processedImage Scenario.shown =
      Some (mkProcessedImage u1 u2 (name Scenario.photo)) /\
    liveURLs Scenario.shown = u2 :: u1 :: liveURLs initialWorld /\
    processedImage (exec handleReset Scenario.shown) = None /\
    error (exec handleReset Scenario.shown) = None /\
    liveURLs (exec handleReset Scenario.shown) = u2 :: u1 :: liveURLs initialWorld.
Proof.
  split; [reflexivity |].
  exact (C1_two_urls_kept_after_reset Scenario.photo Scenario.cutout
           initialWorld Scenario.processing Scenario.photoRun eq_refl).
Defined.

(** C1, as stated, fails: after a successful run from a fresh page and a
    reset, the two object URLs of the run are still alive. *)
Lemma C1_counterexample :
  liveURLs Scenario.shown = [BlobURL 1; BlobURL 0] /\
  processedImage (exec handleReset Scenario.shown) = None /\
  liveURLs (exec handleReset Scenario.shown) = [BlobURL 1; BlobURL 0] /\
  List.length (liveURLs (exec handleReset Scenario.shown)) <> 0.
Proof. repeat split; discriminate. Qed.

(** C2, as the code has it: when [removeBackground] rejects, the error is the
    processing-failed message, the processing flag is false and no result is
    stored: the run cleared the stored result when it started and stores none;
    no URL is created for a processed image, the only URL of the run is the
    one made for the original before the call. *)
Theorem C2_rejected_run_stores_nothing
  (f : File) (reason : string) (w w1 : World) (r : Run) :
  processImage f w = (Some r, w1) ->
  error (exec (processImage_settled r (Rejected reason)) w1) =
    Some msgProcessingFailed /\
  isProcessing (exec (processImage_settled r (Rejected reason)) w1) = false /\
  processedImage (exec (processImage_settled r (Rejected reason)) w1) = None /\
  liveURLs (exec (processImage_settled r (Rejected reason)) w1) = liveURLs w1 /\
  liveURLs w1 = run_originalUrl r :: liveURLs w.
Proof.
  intros Hrun.
  pose proof (processImage_issues_call f w w1 r Hrun) as Hok.
  rewrite (processImage_accepted f w Hok) in Hrun.
  injection Hrun as Hr Hw1. subst r w1.
  rewrite processImage_rejected_world. repeat split.
Qed.

Lemma C2_rejected_run_stores_nothing_witness :
  processImage Scenario.second Scenario.shown =
    (Some Scenario.secondRun, Scenario.processingSecond) /\
  error (exec (processImage_settled Scenario.secondRun (Rejected "out of memory"))
           Scenario.processingSecond) = Some msgProcessingFailed.
Proof.
  split; [reflexivity |].
  exact (proj1 (C2_rejected_run_stores_nothing Scenario.second "out of memory"
                  Scenario.shown Scenario.processingSecond Scenario.secondRun
                  eq_refl)).
Defined.

(** C2, as stated, fails: a run started while a result is shown clears that
    result, and when the call rejects the result is gone; the URL made for
    the original before the call stays in the table. *)
Lemma C2_counterexample :
  processedImage Scenario.shown =
    Some (mkProcessedImage (BlobURL 0) (BlobURL 1) "photo.jpg") /\
  processImage Scenario.second Scenario.shown =
    (Some Scenario.secondRun, Scenario.processingSecond) /\
  processedImage
    (exec (processImage_settled Scenario.secondRun (Rejected "out of memory"))
       Scenario.processingSecond) = None /\
  liveURLs
    (exec (processImage_settled Scenario.secondRun (Rejected "out of memory"))
       Scenario.processingSecond) = BlobURL 2 :: liveURLs Scenario.shown.
Proof. repeat split. Qed.

(** *** The sample path *)

(** A fetch that rejects (a network error), or whose body cannot be read,
    lands in the [catch]: the sample message, the flag cleared, no call. *)
Lemma sample_fetch_rejected (p : Fetch) (o : Settled Response) (w : World) :
  (exists reason, o = Rejected reason) \/
  (exists response reason, o = Fulfilled response /\ body response = Rejected reason) ->
  handleSampleImageClick_settled p o w =
    (None,
     mkWorld (isDragging w) false (processedImage w) (Some msgSampleFailed)
       (fileInput w) (objectURLs w) (urlSerial w) (removeBackgroundCalls w)
       (fetchCalls w) (logSample :: consoleErrors w) (downloads w)
       (defaultsPrevented w)).
Proof.
  intros [[reason ->] | [response [reason [-> Hbody]]]]; simpl.
  - reflexivity.
  - rewrite Hbody. reflexivity.
Qed.

(** A fulfilled fetch is not asked for its status: whatever body arrives
    becomes the file handed to [processImage]. *)
Lemma sample_fetch_fulfilled (p : Fetch) (response : Response) (blob : Blob) (w : World) :
  body response = Fulfilled blob ->
  handleSampleImageClick_settled p (Fulfilled response) w =
    processImage (newFile blob (fetch_filename p)) w.
Proof. intros Hbody. simpl. rewrite Hbody. reflexivity. Qed.

(** C3, at a sample URL answered with 404 and an HTML page: the response is
    not OK, yet the message is the invalid-type one, not the sample one, and
    the processing flag stays set; no call to [removeBackground] is issued. *)
Theorem C3_not_found_leaves_flag_set :
  ok Scenario.notFound = false /\
  error (exec (handleSampleImageClick_settled (mkFetch Scenario.sampleName)
                 (Fulfilled Scenario.notFound)) Scenario.clicked)
    = Some msgInvalidType /\
  msgInvalidType <> msgSampleFailed /\
  isProcessing (exec (handleSampleImageClick_settled (mkFetch Scenario.sampleName)
                        (Fulfilled Scenario.notFound)) Scenario.clicked)
    = true /\
  removeBackgroundCalls
    (exec (handleSampleImageClick_settled (mkFetch Scenario.sampleName)
             (Fulfilled Scenario.notFound)) Scenario.clicked) = [].
Proof. repeat split. discriminate. Qed.

(** *** The event loop *)

Lemma reachable_gatedSteps (gate : Machine -> Op -> bool) (ops : list Op) :
  forall m m', reachable gate m -> gatedSteps gate m ops = Some m' ->
               reachable gate m'.
Proof.
  induction ops as [|op ops IH]; simpl; intros m m' Hm Hrun.
  - injection Hrun as <-. exact Hm.
  - destruct (gate m op) eqn:Hgate; [|discriminate].
    destruct (step m op) as [m1|] eqn:Hstep; [|discriminate].
    apply (IH m1 m'); [|exact Hrun].
    exact (reachable_step gate m op m1 Hm Hgate Hstep).
Qed.

(** The only promise awaited is the one that settles. *)
Lemma sole_pending {A} (l : list A) (i : nat) (x : A) :
  nth_error l i = Some x -> List.length l <= 1 ->
  l = [x] /\ remove_nth i l = [].
Proof.
  destruct l as [|y [|z l]]; simpl; intros Hnth Hlen.
  - destruct i; discriminate.
  - destruct i as [|i]; simpl in Hnth.
    + injection Hnth as ->. split; reflexivity.
    + destruct i; discriminate.
  - lia.
Qed.

Lemma handleDrop_first (f : File) (rest : list File) (w : World) :
  handleDrop (f :: rest) w =
    processImage f (exec (preventDefault ;; setIsDragging false) w).
Proof. reflexivity. Qed.

(** An input taken in turn keeps [turnInv]: a file that passes starts the one
    run, a file that fails only writes the error, where no result is stored. *)
Lemma processImage_turnInv (f : File) (w w' : World) (r : option Run) :
  isProcessing w = false ->
  passesValidation f = true \/ processedImage w = None ->
  processImage f w = (r, w') ->
  turnInv (mkMachine w' (addRun r []) []).
Proof.
  intros Hidle Hgate Hrun.
  destruct (passesValidation f) eqn:Hok.
  - rewrite (processImage_accepted f w Hok) in Hrun.
    injection Hrun as <- <-. split; simpl; intros; [auto | discriminate].
  - destruct Hgate as [Hgate | Hnone]; [discriminate|].
    destruct (passesValidation_false f Hok) as [Htype | [Htype Hsize]];
      [rewrite (processImage_invalid_type f w Htype) in Hrun
      |rewrite (processImage_too_large f w Htype Hsize) in Hrun];
      injection Hrun as <- <-; split; simpl; intros; auto; congruence.
Qed.

Lemma inputs_need_idle (m : Machine) :
  turnInv m -> isProcessing (world m) = false ->
  runs m = [] /\ fetches m = [].
Proof. intros [_ Hidle] H. destruct (Hidle H) as (? & ? & _). auto. Qed.

(** Every event taken in turn keeps [turnInv]. *)
Lemma step_turnInv (m m' : Machine) (op : Op) :
  turnInv m -> inTurn m op = true -> step m op = Some m' -> turnInv m'.
Proof.
  intros Hinv Hturn Hstep.
  destruct m as [w rs fs].
  destruct op as [| |files|files|url fname|i o|i o| |]; simpl in Hstep, Hturn.
  - (* DragOver *)
    injection Hstep as <-. exact Hinv.
  - (* DragLeave *)
    injection Hstep as <-. exact Hinv.
  - (* Drop *)
    destruct files as [|f rest].
    + injection Hstep as <-. exact Hinv.
    + apply andb_true_iff in Hturn as [Hidle Hgate].
      apply negb_true_iff in Hidle.
      destruct (inputs_need_idle _ Hinv Hidle) as [Hrs Hfs].
      simpl in Hrs, Hfs. subst rs fs.
      rewrite handleDrop_first in Hstep.
      destruct (processImage f _) as [r w'] eqn:Hrun.
      injection Hstep as <-.
      apply (processImage_turnInv f _ w' r) in Hrun; [exact Hrun | exact Hidle |].
      apply orb_true_iff in Hgate as [Hok | Hnone]; [left; exact Hok | right].
      simpl. destruct (processedImage w); [discriminate | reflexivity].
  - (* FileSelect *)
    destruct files as [[|f rest]|]; simpl in Hstep;
      try (injection Hstep as <-; exact Hinv).
    apply andb_true_iff in Hturn as [Hidle Hgate].
    apply negb_true_iff in Hidle.
    destruct (inputs_need_idle _ Hinv Hidle) as [Hrs Hfs].
    simpl in Hrs, Hfs. subst rs fs.
    destruct (processImage f w) as [r w'] eqn:Hrun.
    injection Hstep as <-.
    apply (processImage_turnInv f w w' r) in Hrun; [exact Hrun | exact Hidle |].
    apply orb_true_iff in Hgate as [Hok | Hnone]; [left; exact Hok | right].
    destruct (processedImage w); [discriminate | reflexivity].
  - (* SampleClick *)
    apply negb_true_iff in Hturn.
    destruct (inputs_need_idle _ Hinv Hturn) as [Hrs Hfs].
    simpl in Hrs, Hfs. subst rs fs.
    injection Hstep as <-. split; simpl; intros; [auto | discriminate].
  - (* FetchSettles *)
    destruct (nth_error fs i) as [p|] eqn:Hnth; [|discriminate].
    destruct Hinv as [Hbusy Hidle]. simpl in Hbusy, Hidle.
    destruct (isProcessing w) eqn:Hflag.
    2:{ destruct (Hidle eq_refl) as (_ & Hfs & _). subst fs.
        destruct i; discriminate. }
    destruct (Hbusy eq_refl) as (Herr & Hres & Hlen).
    destruct (sole_pending fs i p Hnth ltac:(lia)) as [Hfs Hrem].
    rewrite Hrem in Hstep. subst fs. simpl in Hlen.
    assert (rs = []) as -> by (destruct rs; [reflexivity | simpl in Hlen; lia]).
    destruct o as [response | reason].
    + destruct (body response) as [blob | reason] eqn:Hbody.
      * rewrite (sample_fetch_fulfilled p response blob w Hbody) in Hstep.
        rewrite (processImage_accepted _ w Hturn) in Hstep.
        injection Hstep as <-. split; simpl; intros; [auto | discriminate].
      * rewrite (sample_fetch_rejected p (Fulfilled response) w) in Hstep
          by (right; eauto).
        injection Hstep as <-. split; simpl; intros; [discriminate | auto].
    + rewrite (sample_fetch_rejected p (Rejected reason) w) in Hstep
        by (left; eauto).
      injection Hstep as <-. split; simpl; intros; [discriminate | auto].
  - (* RunSettles *)
    destruct (nth_error rs i) as [r|] eqn:Hnth; [|discriminate].
    destruct Hinv as [Hbusy Hidle]. simpl in Hbusy, Hidle.
    destruct (isProcessing w) eqn:Hflag.
    2:{ destruct (Hidle eq_refl) as (Hrs & _ & _). subst rs.
        destruct i; discriminate. }
    destruct (Hbusy eq_refl) as (Herr & Hres & Hlen).
    destruct (sole_pending rs i r Hnth ltac:(lia)) as [Hrs Hrem].
    rewrite Hrem in Hstep. subst rs. simpl in Hlen.
    assert (fs = []) as -> by (destruct fs; [reflexivity | simpl in Hlen; lia]).
    injection Hstep as <-.
    destruct o as [blob | reason].
    + rewrite processImage_fulfilled_world.
      split; simpl; intros; [discriminate | ].
      repeat split; auto. intros Hne. congruence.
    + rewrite processImage_rejected_world.
      split; simpl; intros; [discriminate | auto].
  - (* Download *)
    injection Hstep as <-.
    assert (Hsame : isProcessing (exec handleDownload w) = isProcessing w /\
                    error (exec handleDownload w) = error w /\
                    processedImage (exec handleDownload w) = processedImage w).
    { unfold exec, handleDownload. destruct (processedImage w) eqn:Hp; simpl; auto. }
    destruct Hsame as (Hf & He & Hp).
    unfold turnInv. simpl. rewrite Hf, He, Hp. exact Hinv.
  - (* Reset *)
    injection Hstep as <-. rewrite handleReset_world.
    destruct Hinv as [Hbusy Hidle]. simpl in Hbusy, Hidle.
    split; simpl; intros Hflag.
    + destruct (Hbusy Hflag) as (_ & _ & Hlen). auto.
    + destruct (Hidle Hflag) as (Hrs & Hfs & _). auto.
Qed.

Lemma reachable_turnInv (m : Machine) : reachable inTurn m -> turnInv m.
Proof.
  induction 1 as [|m op m' _ IH Hturn Hstep].
  - split; simpl; intros; [discriminate | auto].
  - exact (step_turnInv m m' op IH Hturn Hstep).
Qed.

(** What the view offers is taken in turn, as long as the samples that
    arrive pass validation. *)
Lemma offered_inTurn (m : Machine) (op : Op) :
  offered m op = true ->
  (forall i o, op = FetchSettles i o -> inTurn m op = true) ->
  inTurn m op = true.
Proof.
  intros Hoff Hsample.
  destruct op as [| |files|files|url fname|i o|i o| |];
    try reflexivity; try (eapply Hsample; reflexivity);
    simpl in Hoff; unfold showsUpload in Hoff;
    destruct (processedImage (world m)) eqn:Hres; try discriminate.
  - destruct files as [|f rest]; [reflexivity|]. simpl.
    rewrite Hres, Hoff, orb_true_r. reflexivity.
  - destruct files as [[|f rest]|]; try reflexivity. simpl.
    rewrite Hres, Hoff, orb_true_r. reflexivity.
  - simpl. exact Hoff.
Qed.

(** The sample answered with 404 is within what the view offers: the click
    comes from the upload panel.  Afterwards the spinner is shown with nothing
    awaited, and the panel that would show the message is not rendered. *)
Lemma not_found_through_the_view :
  exists m,
    gatedSteps offered initialMachine
      [SampleClick Scenario.sampleUrl Scenario.sampleName;
       FetchSettles 0 (Fulfilled Scenario.notFound)] = Some m /\
    error (world m) = Some msgInvalidType /\
    showsSpinner (world m) = true /\
    showsUpload (world m) = false /\
    runs m = [] /\ fetches m = [].
Proof.
  eexists. split; [vm_compute; reflexivity |]. repeat split.
Qed.

(** C4, as the code has it: in every state reached by events taken in turn
    (an input arrives only while the processing flag is false, a file that
    fails validation only while no result is stored, and a sample whose fetch
    is fulfilled passes validation) an error message coexists neither with
    the processing flag nor with a stored result. *)
Theorem C4_error_alone_in_turn (m : Machine) :
  reachable inTurn m -> errorAlone (world m).
Proof.
  intros Hreach. destruct (reachable_turnInv m Hreach) as [Hbusy Hidle].
  intros Herr. destruct (isProcessing (world m)) eqn:Hflag.
  - destruct (Hbusy eq_refl) as (Hnone & _). contradiction.
  - destruct (Hidle eq_refl) as (_ & _ & Hres). split; [reflexivity | auto].
Qed.

Lemma C4_error_alone_in_turn_witness :
  exists m,
    gatedSteps inTurn initialMachine Scenario.session = Some m /\
    reachable inTurn m /\
    error (world m) = Some msgTooLarge /\
    errorAlone (world m).
Proof.
  eexists. split; [vm_compute; reflexivity |].
  match goal with
  | |- reachable inTurn ?m /\ _ => assert (Hreach : reachable inTurn m)
  end.
  { apply (reachable_gatedSteps inTurn Scenario.session initialMachine);
      [apply reachable_initial | vm_compute; reflexivity]. }
  split; [exact Hreach | split; [reflexivity |]].
  exact (C4_error_alone_in_turn _ Hreach).
Defined.

(** C4, as stated, fails: a file that fails validation, selected while a
    result is stored, leaves its error message next to that result. *)
Lemma C4_counterexample :
  exists m,
    gatedSteps anyOp initialMachine Scenario.overResult = Some m /\
    reachable anyOp m /\
    error (world m) = Some msgInvalidType /\
    processedImage (world m) =
      Some (mkProcessedImage (BlobURL 0) (BlobURL 1) "photo.jpg") /\
    ~ errorAlone (world m).
Proof.
  eexists. split; [vm_compute; reflexivity |].
  split; [|split; [reflexivity | split; [reflexivity |]]].
  - apply (reachable_gatedSteps anyOp Scenario.overResult initialMachine);
      [apply reachable_initial | vm_compute; reflexivity].
  - intros Halone. destruct Halone as [_ Hres]; discriminate.
Qed.

(** *** Every event, case by case *)

(** What [processImage] does, by the outcome of validation. *)
Lemma processImage_cases (f : File) (w : World) :
  (passesValidation f = true /\
   processImage f w =
     (Some (mkRun f (BlobURL (urlSerial w))),
      mkWorld (isDragging w) true None None (fileInput w)
        ((BlobURL (urlSerial w), OfFile f) :: objectURLs w) (S (urlSerial w))
        (f :: removeBackgroundCalls w) (fetchCalls w) (consoleErrors w)
        (downloads w) (defaultsPrevented w))) \/
  (passesValidation f = false /\
   exists msg,
     processImage f w =
       (None,
        mkWorld (isDragging w) (isProcessing w) (processedImage w) (Some msg)
          (fileInput w) (objectURLs w) (urlSerial w) (removeBackgroundCalls w)
          (fetchCalls w) (consoleErrors w) (downloads w) (defaultsPrevented w))).
Proof.
  destruct (passesValidation f) eqn:Hok.
  - left. split; [reflexivity | apply processImage_accepted, Hok].
  - right. split; [reflexivity |].
    destruct (passesValidation_false f Hok) as [Htype | [Htype Hsize]].
    + exists msgInvalidType. apply processImage_invalid_type, Htype.
    + exists msgTooLarge. apply processImage_too_large; assumption.
Qed.

(** A download writes the list of downloads, nothing else. *)
Lemma handleDownload_world (w : World) :
  exec handleDownload w =
    mkWorld (isDragging w) (isProcessing w) (processedImage w) (error w)
      (fileInput w) (objectURLs w) (urlSerial w) (removeBackgroundCalls w)
      (fetchCalls w) (consoleErrors w)
      (match processedImage w with
       | Some p => (processed p, downloadPrefix ++ filename p) :: downloads w
       | None => downloads w
       end)
      (defaultsPrevented w).
Proof.
  unfold exec, handleDownload. destruct w as [dg pr res err fi us n cs fc ce dl dp].
  simpl. destruct res; reflexivity.
Qed.

(** Splits [Hstep : step m op = Some m'] into the ways an event can go and
    leaves [m'] written out in each. *)
Ltac on_processImage Hstep f w :=
  let Hok := fresh "Hok" in
  let Hrun := fresh "Hrun" in
  let msg := fresh "msg" in
  destruct (processImage_cases f w) as [[Hok Hrun] | [Hok [msg Hrun]]];
  rewrite Hrun in Hstep; clear Hrun.

Ltac on_nth_error Hstep :=
  lazymatch type of Hstep with
  | context [nth_error ?l ?i] =>
      let p := fresh "p" in
      let Hnth := fresh "Hnth" in
      destruct (nth_error l i) as [p|] eqn:Hnth; [|discriminate Hstep]
  end.

Ltac on_call Hstep :=
  lazymatch type of Hstep with
  | context [processImage ?f ?w0] => on_processImage Hstep f w0
  end.

Ltac step_cases Hstep :=
  lazymatch type of Hstep with
  | step ?m ?op = Some _ =>
      let w := fresh "w" in
      let rs := fresh "rs" in
      let fs := fresh "fs" in
      destruct m as [w rs fs];
      destruct op as [| |[|?f ?rest]|[[|?f ?rest]|]|?url ?fname
                     |?i [?response|?reason]|?i [?blob|?reason]| |];
      cbn [step world runs fetches] in Hstep;
      [ (* DragOver *) | (* DragLeave *) | (* Drop [] *)
      | (* Drop (f :: rest) *)
        rewrite handleDrop_first in Hstep; on_call Hstep
      | (* FileSelect (Some []) *)
      | (* FileSelect (Some (f :: rest)) *)
        cbn [handleFileSelect] in Hstep; on_call Hstep
      | (* FileSelect None *) | (* SampleClick *)
      | (* FetchSettles, fulfilled *)
        on_nth_error Hstep;
        lazymatch type of Hstep with
        | context [handleSampleImageClick_settled ?p (Fulfilled ?resp) ?w0] =>
            let b := fresh "blob" in
            let Hbody := fresh "Hbody" in
            destruct (body resp) as [b|?reason] eqn:Hbody;
            [ rewrite (sample_fetch_fulfilled p resp b w0 Hbody) in Hstep;
              on_call Hstep
            | rewrite (sample_fetch_rejected p (Fulfilled resp) w0) in Hstep
                by (right; eauto) ]
        end
      | (* FetchSettles, rejected *)
        on_nth_error Hstep;
        lazymatch type of Hstep with
        | context [handleSampleImageClick_settled ?p (Rejected ?rsn) ?w0] =>
            rewrite (sample_fetch_rejected p (Rejected rsn) w0) in Hstep
              by (left; eauto)
        end
      | (* RunSettles, fulfilled *)
        on_nth_error Hstep; rewrite processImage_fulfilled_world in Hstep
      | (* RunSettles, rejected *)
        on_nth_error Hstep; rewrite processImage_rejected_world in Hstep
      | (* Download *)
        rewrite handleDownload_world in Hstep
      | (* Reset *)
        rewrite handleReset_world in Hstep ];
      injection Hstep as <-
  end.


Lemma remove_nth_length {A} (l : list A) (i : nat) (x : A) :
  nth_error l i = Some x -> S (List.length (remove_nth i l)) = List.length l.
Proof.
  revert i. induction l as [|y l IH]; intros [|i] Hnth; simpl in *;
    try discriminate; [reflexivity | rewrite (IH i Hnth); reflexivity].
Qed.

Lemma remove_nth_In {A} (l : list A) (i : nat) (x : A) :
  In x (remove_nth i l) -> In x l.
Proof.
  revert i. induction l as [|y l IH]; intros [|i] Hin; simpl in *; auto.
  destruct Hin as [-> | Hin]; [left; reflexivity | right; eauto].
Qed.

(** An invariant of every event holds in every reachable state. *)
Lemma reachable_invariant (gate : Machine -> Op -> bool) (P : Machine -> Prop) :
  P initialMachine ->
  (forall m op m', P m -> gate m op = true -> step m op = Some m' -> P m') ->
  forall m, reachable gate m -> P m.
Proof.
  intros Hinit Hstep m Hreach.
  induction Hreach as [|m op m' _ IH Hgate Hs]; eauto.
Qed.

(** *** What reaches [removeBackground] *)

Lemma step_calls_validated (m m' : Machine) (op : Op) :
  step m op = Some m' ->
  Forall (fun f => passesValidation f = true) (removeBackgroundCalls (world m)) ->
  Forall (fun f => passesValidation f = true) (removeBackgroundCalls (world m')).
Proof.
  intros Hstep Hall. step_cases Hstep; cbn in *;
    try exact Hall; constructor; assumption.
Qed.

(** X1: whatever the order of events, every file handed to [removeBackground]
    has passed both checks. *)
Theorem X1_calls_are_validated (m : Machine) (f : File) :
  reachable anyOp m ->
  In f (removeBackgroundCalls (world m)) ->
  String.prefix "image/" (type f) = true /\ (size f <= 10485760)%N.
Proof.
  intros Hreach Hin.
  assert (Hall : Forall (fun f => passesValidation f = true)
                   (removeBackgroundCalls (world m))).
  { apply (reachable_invariant anyOp
             (fun m => Forall (fun f => passesValidation f = true)
                         (removeBackgroundCalls (world m)))); [| | exact Hreach].
    - constructor.
    - intros m0 op m' Hall _ Hstep.
      exact (step_calls_validated m0 m' op Hstep Hall). }
  rewrite Forall_forall in Hall. specialize (Hall f Hin).
  unfold passesValidation in Hall. apply andb_true_iff in Hall as [Htype Hsize].
  split; [exact Htype |].
  apply negb_true_iff in Hsize. unfold isTooLarge in Hsize.
  apply N.ltb_ge in Hsize. exact Hsize.
Qed.

Lemma X1_calls_are_validated_witness :
  exists m,
    gatedSteps anyOp initialMachine Scenario.raced = Some m /\
    In Scenario.second (removeBackgroundCalls (world m)) /\
    String.prefix "image/" (type Scenario.second) = true /\
    (size Scenario.second <= 10485760)%N.
Proof.
  eexists. split; [vm_compute; reflexivity |].
  match goal with
  | |- In _ (removeBackgroundCalls (world ?m)) /\ _ =>
      assert (Hreach : reachable anyOp m)
  end.
  { apply (reachable_gatedSteps anyOp Scenario.raced initialMachine);
      [apply reachable_initial | vm_compute; reflexivity]. }
  split; [left; reflexivity |].
  exact (X1_calls_are_validated _ Scenario.second Hreach (or_introl eq_refl)).
Defined.

(** *** The panels of the view *)

Lemma step_spinner_excludes_result (m m' : Machine) (op : Op) :
  step m op = Some m' ->
  (isProcessing (world m) = true -> processedImage (world m) = None) ->
  isProcessing (world m') = true -> processedImage (world m') = None.
Proof.
  intros Hstep Hinv. step_cases Hstep; cbn in *;
    auto; discriminate.
Qed.

(** X2: whatever the order of events, the view renders exactly one of its
    three panels: the upload panel, the spinner or the result. *)
Theorem X2_exactly_one_panel (m : Machine) :
  reachable anyOp m ->
  panels (world m) = (true, false, false) \/
  panels (world m) = (false, true, false) \/
  panels (world m) = (false, false, true).
Proof.
  intros Hreach.
  assert (Hinv : isProcessing (world m) = true -> processedImage (world m) = None).
  { apply (reachable_invariant anyOp
             (fun m => isProcessing (world m) = true ->
                       processedImage (world m) = None)); [| | exact Hreach].
    - discriminate.
    - intros m0 op m' H0 _ Hstep.
      exact (step_spinner_excludes_result m0 m' op Hstep H0). }
  unfold panels, showsUpload, showsSpinner, showsResult.
  destruct (isProcessing (world m)).
  - rewrite (Hinv eq_refl). auto.
  - destruct (processedImage (world m)); auto.
Qed.

Lemma X2_exactly_one_panel_witness :
  exists m,
    gatedSteps anyOp initialMachine Scenario.raced = Some m /\
    (panels (world m) = (true, false, false) \/
     panels (world m) = (false, true, false) \/
     panels (world m) = (false, false, true)).
Proof.
  eexists. split; [vm_compute; reflexivity |].
  apply X2_exactly_one_panel.
  apply (reachable_gatedSteps anyOp Scenario.raced initialMachine);
      [apply reachable_initial | vm_compute; reflexivity].
Defined.

(** *** Object URLs *)

(** X3: no event releases an object URL: the table after an event is the
    table before it, with at most one new URL in front. *)
Theorem X3_urls_only_grow (m m' : Machine) (op : Op) :
  step m op = Some m' ->
  liveURLs (world m') = liveURLs (world m) \/
  liveURLs (world m') = BlobURL (urlSerial (world m)) :: liveURLs (world m).
Proof.
  intros Hstep. step_cases Hstep; cbn; auto.
Qed.

Lemma X3_urls_only_grow_witness :
  exists m',
    step initialMachine (FileSelect (Some [Scenario.photo])) = Some m' /\
    (liveURLs (world m') = liveURLs (world initialMachine) \/
     liveURLs (world m') =
       BlobURL (urlSerial (world initialMachine)) :: liveURLs (world initialMachine)).
Proof.
  eexists. split; [vm_compute; reflexivity |].
  apply (X3_urls_only_grow initialMachine _ (FileSelect (Some [Scenario.photo]))).
  vm_compute. reflexivity.
Defined.

Lemma step_urls_kept (m m' : Machine) (op : Op) :
  step m op = Some m' -> urlsKept m -> urlsKept m'.
Proof.
  intros Hstep (Hnodup & Hold & Hruns & Hres).
  assert (Hfresh : ~ In (BlobURL (urlSerial (world m))) (liveURLs (world m))).
  { intros Hin. apply Hold in Hin. simpl in Hin. lia. }
  step_cases Hstep; unfold urlsKept, liveURLs in *; cbn in *;
    (split; [|split; [|split]]);
    try assumption;
    try (constructor; assumption);
    try (intros ? [<- | Hin]; [simpl; lia | apply Hold in Hin; lia]);
    try (intros ? [<- | Hin]; [left; reflexivity | right; auto]);
    try (intros ? Hin; apply remove_nth_In in Hin; auto);
    try (intros ? Hp; discriminate Hp).
  (* a run is fulfilled: its original is in the table, the new URL is not *)
  intros p0 Hp. injection Hp as <-. cbn.
  apply nth_error_In in Hnth. apply Hruns in Hnth.
  split; [right; exact Hnth | split; [left; reflexivity |]].
  intros Heq. rewrite Heq in Hnth. contradiction.
Qed.

Lemma reachable_urls_kept (m : Machine) : reachable anyOp m -> urlsKept m.
Proof.
  apply reachable_invariant.
  - repeat split; cbn; try constructor; try contradiction; discriminate.
  - intros m0 op m' Hinv _ Hstep. exact (step_urls_kept m0 m' op Hstep Hinv).
Qed.

(** X4: whatever the order of events, the two URLs of a stored result are
    different and both alive in the table. *)
Theorem X4_result_urls_alive_and_distinct (m : Machine) (p : ProcessedImage) :
  reachable anyOp m ->
  processedImage (world m) = Some p ->
  original p <> processed p /\
  In (original p) (liveURLs (world m)) /\
  In (processed p) (liveURLs (world m)).
Proof.
  intros Hreach Hp.
  destruct (reachable_urls_kept m Hreach) as (_ & _ & _ & Hres).
  destruct (Hres p Hp) as (Ho & Hpr & Hne). auto.
Qed.

Lemma X4_result_urls_alive_and_distinct_witness :
  exists m,
    gatedSteps anyOp initialMachine Scenario.raced = Some m /\
    processedImage (world m) =
      Some (mkProcessedImage (BlobURL 3) (BlobURL 4) "beach.jpg") /\
    BlobURL 3 <> BlobURL 4 /\
    In (BlobURL 3) (liveURLs (world m)) /\
    In (BlobURL 4) (liveURLs (world m)).
Proof.
  eexists. split; [vm_compute; reflexivity |].
  split; [reflexivity |].
  apply (X4_result_urls_alive_and_distinct _
           (mkProcessedImage (BlobURL 3) (BlobURL 4) "beach.jpg"));
    [| reflexivity].
  apply (reachable_gatedSteps anyOp Scenario.raced initialMachine);
      [apply reachable_initial | vm_compute; reflexivity].
Defined.






(** *** Through the view *)

Lemma step_viewInv (m m' : Machine) (op : Op) :
  viewInv m -> offered m op = true -> step m op = Some m' -> viewInv m'.
Proof.
  intros (Hidle & Hbusy & Hshown) Hoff Hstep.
  assert (Hupload : showsUpload (world m) = true ->
                    isProcessing (world m) = false /\
                    processedImage (world m) = None /\ pending m = 0).
  { unfold showsUpload. destruct (processedImage (world m)); [discriminate|].
    intros Hflag. apply negb_true_iff in Hflag. auto. }
  assert (Hresult : showsResult (world m) = true ->
                    isProcessing (world m) = false /\ pending m = 0).
  { unfold showsResult. destruct (processedImage (world m)) eqn:Hres;
      [|discriminate]. intros _.
    destruct Hshown as [_ Hflag]; [discriminate | auto]. }
  step_cases Hstep; unfold viewInv, pending in *; cbn in *;
    try (destruct (Hupload Hoff) as (Hflag & Hres & Hnone));
    try (destruct (Hresult Hoff) as (Hflag & Hnone));
    try (pose proof (remove_nth_length _ _ _ Hnth) as Hlen;
         destruct Hbusy as (Hone & Herr & Hres); [lia|]);
    try (rewrite Hres in * );
    try (rewrite Herr in * );
    repeat split; intros; auto; try discriminate; try congruence; try lia.
  (* a download: the result stays as it was *)
  apply Hshown; assumption.
Qed.

Lemma reachable_viewInv (m : Machine) : reachable offered m -> viewInv m.
Proof.
  apply reachable_invariant.
  - unfold viewInv, pending. cbn. repeat split; intros; auto; congruence.
  - intros m0 op m' Hinv Hoff Hstep. exact (step_viewInv m0 m' op Hinv Hoff Hstep).
Qed.

(** X7: through the view runs never overlap: at most one promise is awaited at
    any time, and none while the processing flag is clear. *)
Theorem X7_view_awaits_at_most_one (m : Machine) :
  reachable offered m ->
  pending m <= 1 /\
  (isProcessing (world m) = false -> runs m = [] /\ fetches m = []).
Proof.
  intros Hreach. destruct (reachable_viewInv m Hreach) as (Hidle & Hbusy & _).
  split.
  - destruct (pending m) as [|n] eqn:Hn; [lia |].
    destruct Hbusy as [Hone _]; [discriminate | lia].
  - intros Hflag. specialize (Hidle Hflag). unfold pending in Hidle.
    destruct (runs m), (fetches m); simpl in Hidle; auto; lia.
Qed.

Lemma X7_view_awaits_at_most_one_witness :
  exists m,
    gatedSteps offered initialMachine Scenario.visit = Some m /\
    pending m <= 1 /\
    (isProcessing (world m) = false -> runs m = [] /\ fetches m = []).
Proof.
  eexists. split; [vm_compute; reflexivity |].
  apply X7_view_awaits_at_most_one.
  apply (reachable_gatedSteps offered Scenario.visit initialMachine);
      [apply reachable_initial | vm_compute; reflexivity].
Defined.

(** X8: through the view an error message is never stored beside a result,
    whatever the samples answer. *)
Theorem X8_view_never_shows_error_with_result (m : Machine) (p : ProcessedImage) :
  reachable offered m ->
  processedImage (world m) = Some p ->
  error (world m) = None /\ isProcessing (world m) = false.
Proof.
  intros Hreach Hp. destruct (reachable_viewInv m Hreach) as (_ & _ & Hshown).
  apply Hshown. rewrite Hp. discriminate.
Qed.

Lemma X8_view_never_shows_error_with_result_witness :
  exists m,
    gatedSteps offered initialMachine Scenario.visit = Some m /\
    processedImage (world m) =
      Some (mkProcessedImage (BlobURL 0) (BlobURL 1) "photo.jpg") /\
    error (world m) = None /\ isProcessing (world m) = false.
Proof.
  eexists. split; [vm_compute; reflexivity |].
  split; [reflexivity |].
  apply (X8_view_never_shows_error_with_result _
           (mkProcessedImage (BlobURL 0) (BlobURL 1) "photo.jpg"));
    [| reflexivity].
  apply (reachable_gatedSteps offered Scenario.visit initialMachine);
      [apply reachable_initial | vm_compute; reflexivity].
Defined.

(** X9: through the view, once the processing flag is set with nothing
    awaited, no event can be delivered any more: the spinner is all there is. *)
Theorem X9_view_stuck_on_spinner (m : Machine) (op : Op) :
  reachable offered m ->
  isProcessing (world m) = true -> runs m = [] -> fetches m = [] ->
  offered m op = true -> step m op = None.
Proof.
  intros Hreach Hflag Hruns Hfetches Hoff.
  destruct (reachable_viewInv m Hreach) as (_ & _ & Hshown).
  assert (Hres : processedImage (world m) = None).
  { destruct (processedImage (world m)) eqn:Hp; [|reflexivity].
    destruct Hshown as [_ Hclear]; [discriminate | congruence]. }
  destruct op; simpl in Hoff; unfold showsUpload, showsResult in Hoff;
    try rewrite Hres in Hoff; try rewrite Hflag in Hoff; try discriminate;
    simpl; [rewrite Hfetches | rewrite Hruns]; destruct i; reflexivity.
Qed.

Lemma X9_view_stuck_on_spinner_witness :
  exists m,
    gatedSteps offered initialMachine Scenario.spinning = Some m /\
    isProcessing (world m) = true /\ runs m = [] /\ fetches m = [] /\
    offered m (RunSettles 0 (Fulfilled Scenario.cutout)) = true /\
    step m (RunSettles 0 (Fulfilled Scenario.cutout)) = None.
Proof.
  eexists. split; [vm_compute; reflexivity |].
  repeat (split; [reflexivity |]).
  apply X9_view_stuck_on_spinner; try reflexivity.
  apply (reachable_gatedSteps offered Scenario.spinning initialMachine);
      [apply reachable_initial | vm_compute; reflexivity].
Defined.

(** X10: with events taken in turn the processing flag tells whether a promise
    is awaited: set, exactly one is; clear, none is. *)
Theorem X10_in_turn_flag_tells_pending (m : Machine) :
  reachable inTurn m ->
  pending m = (if isProcessing (world m) then 1 else 0).
Proof.
  intros Hreach. destruct (reachable_turnInv m Hreach) as [Hbusy Hidle].
  unfold pending. destruct (isProcessing (world m)).
  - destruct (Hbusy eq_refl) as (_ & _ & Hone). exact Hone.
  - destruct (Hidle eq_refl) as (-> & -> & _). reflexivity.
Qed.

Lemma X10_in_turn_flag_tells_pending_witness :
  exists m,
    gatedSteps inTurn initialMachine
      [FileSelect (Some [Scenario.photo])] = Some m /\
    pending m = (if isProcessing (world m) then 1 else 0).
Proof.
  eexists. split; [vm_compute; reflexivity |].
  apply X10_in_turn_flag_tells_pending.
  apply (reachable_gatedSteps inTurn [FileSelect (Some [Scenario.photo])] initialMachine);
      [apply reachable_initial | vm_compute; reflexivity].
Defined.

(** *** The handlers, one against another *)

(** X11: a drop is a drag-leave followed by a selection of the dropped files:
    the first file is processed, the others are ignored, and nothing is
    processed when no file was dropped. *)
Theorem X11_drop_is_leave_then_select (files : list File) (w : World) :
  handleDrop files w = handleFileSelect (Some files) (exec handleDragLeave w) /\
  (forall f rest, files = f :: rest ->
     handleDrop files w = processImage f (exec handleDragLeave w)) /\
  (files = [] -> handleDrop files w = (None, exec handleDragLeave w)).
Proof.
  split; [destruct files; reflexivity | split].
  - intros f rest ->. reflexivity.
  - intros ->. reflexivity.
Qed.

(** X12: [removeBackground] is called exactly for the files whose media type
    starts with [image/] and whose size is at most 10,485,760 bytes: the
    limit itself passes. *)
Theorem X12_call_issued_iff_valid (f : File) (w : World) :
  removeBackgroundCalls (exec (processImage f) w) = f :: removeBackgroundCalls w
  <-> String.prefix "image/" (type f) = true /\ (size f <= 10485760)%N.
Proof.
  unfold exec.
  destruct (processImage_cases f w) as [[Hok Hrun] | [Hok [msg Hrun]]];
    rewrite Hrun; cbn; unfold passesValidation, isTooLarge, isImageType in Hok.
  - split; [intros _ | reflexivity].
    apply andb_true_iff in Hok as [Htype Hsize].
    apply negb_true_iff, N.ltb_ge in Hsize. auto.
  - split.
    + intros Heq. exfalso.
      apply (f_equal (@List.length File)) in Heq. simpl in Heq. lia.
    + intros [Htype Hsize]. apply N.ltb_ge in Hsize.
      unfold maxBytes in Hok. rewrite Htype in Hok.
      change (10 * 1024 * 1024)%N with 10485760%N in Hok.
      rewrite Hsize in Hok. discriminate.
Qed.

(** X13: a download without a stored result does nothing at all, and with one
    it always does something: the world is unchanged exactly when no result
    is stored. *)
Theorem X13_download_needs_result (w : World) :
  exec handleDownload w = w <-> processedImage w = None.
Proof.
  rewrite handleDownload_world. split.
  - intros Heq. destruct (processedImage w) as [p|]; [exfalso | reflexivity].
    apply (f_equal downloads) in Heq. cbn in Heq.
    apply (f_equal (@List.length (ObjectURL * string))) in Heq.
    simpl in Heq. lia.
  - intros Hnone. destruct w as [dg pr res err fi us n cs fc ce dl dp].
    cbn in *. subst res. reflexivity.
Qed.

(** X14: a reset does not cancel a run in flight: when the call is fulfilled
    after the reset, its result is stored all the same. *)
Theorem X14_reset_does_not_cancel (m : Machine) (i : nat) (r : Run) (blob : Blob) :
  nth_error (runs m) i = Some r ->
  exists m',
    gatedSteps anyOp m [Reset; RunSettles i (Fulfilled blob)] = Some m' /\
    processedImage (world m') =
      Some (mkProcessedImage (run_originalUrl r)
              (BlobURL (urlSerial (world m))) (name (run_file r))) /\
    error (world m') = None /\
    isProcessing (world m') = false /\
    runs m' = remove_nth i (runs m).
Proof.
  intros Hnth. eexists. split.
  - cbn [gatedSteps anyOp step world runs fetches]. rewrite Hnth. reflexivity.
  - rewrite processImage_fulfilled_world, handleReset_world. cbn. auto.
Qed.

Lemma X14_reset_does_not_cancel_witness :
  nth_error (runs (mkMachine Scenario.processing [Scenario.photoRun] [])) 0 =
    Some Scenario.photoRun /\
  exists m',
    gatedSteps anyOp (mkMachine Scenario.processing [Scenario.photoRun] [])
      [Reset; RunSettles 0 (Fulfilled Scenario.cutout)] = Some m' /\
    processedImage (world m') =
      Some (mkProcessedImage (BlobURL 0) (BlobURL 1) "photo.jpg") /\
    error (world m') = None /\
    isProcessing (world m') = false /\
    runs m' = [].
Proof.
  split; [reflexivity |].
  exact (X14_reset_does_not_cancel
           (mkMachine Scenario.processing [Scenario.photoRun] []) 0
           Scenario.photoRun Scenario.cutout eq_refl).
Defined.

(** X15: a sample whose fetch is fulfilled is processed whatever the status of
    the response: the body becomes a file named after the sample, and when it
    passes validation and the call is fulfilled the result carries that name
    and no error is left. *)
Theorem X15_sample_is_processed_whatever_status
  (m : Machine) (imageUrl fname : string) (response : Response) (blob cut : Blob) :
  body response = Fulfilled blob ->
  passesValidation (newFile blob fname) = true ->
  exists m',
    gatedSteps anyOp m
      [SampleClick imageUrl fname;
       FetchSettles 0 (Fulfilled response);
       RunSettles 0 (Fulfilled cut)] = Some m' /\
    processedImage (world m') =
      Some (mkProcessedImage (BlobURL (urlSerial (world m)))
              (BlobURL (S (urlSerial (world m)))) fname) /\
    error (world m') = None /\
    isProcessing (world m') = false /\
    fetchCalls (world m') = imageUrl :: fetchCalls (world m) /\
    removeBackgroundCalls (world m') =
      newFile blob fname :: removeBackgroundCalls (world m) /\
    runs m' = runs m /\ fetches m' = fetches m.
Proof.
  intros Hbody Hok. eexists. split.
  - cbn [gatedSteps anyOp step world runs fetches nth_error
         handleSampleImageClick bind ret modify exec snd fst
         setError setIsProcessing setProcessedImage callFetch].
    rewrite (sample_fetch_fulfilled _ response blob _ Hbody).
    cbn [fetch_filename].
    rewrite (processImage_accepted _ _ Hok).
    cbn [addRun nth_error remove_nth runs fetches world]. reflexivity.
  - rewrite processImage_fulfilled_world. cbn. repeat split.
Qed.

Lemma X15_sample_is_processed_whatever_status_witness :
  ok Scenario.notFoundImage = false /\
  body Scenario.notFoundImage = Fulfilled (mkBlob "image/png" 2048) /\
  passesValidation (newFile (mkBlob "image/png" 2048) Scenario.sampleName) = true /\
  exists m',
    gatedSteps anyOp initialMachine
      [SampleClick Scenario.sampleUrl Scenario.sampleName;
       FetchSettles 0 (Fulfilled Scenario.notFoundImage);
       RunSettles 0 (Fulfilled Scenario.cutout)] = Some m' /\
    processedImage (world m') =
      Some (mkProcessedImage (BlobURL 0) (BlobURL 1) Scenario.sampleName) /\
    error (world m') = None /\
    isProcessing (world m') = false /\
    fetchCalls (world m') = [Scenario.sampleUrl] /\
    removeBackgroundCalls (world m') =
      [newFile (mkBlob "image/png" 2048) Scenario.sampleName] /\
    runs m' = [] /\ fetches m' = [].
Proof.
  repeat (split; [reflexivity |]).
  exact (X15_sample_is_processed_whatever_status initialMachine
           Scenario.sampleUrl Scenario.sampleName Scenario.notFoundImage
           (mkBlob "image/png" 2048) Scenario.cutout eq_refl eq_refl).
Defined.

(** *** Passive events *)

Ltac same_worlds H :=
  destruct H as (Hr & Hf & Hpr & Hres & Herr & Hfi & Hus & Hn & Hcs & Hfc & Hce);
  cbn in Hr, Hf, Hpr, Hres, Herr, Hfi, Hus, Hn, Hcs, Hfc, Hce; subst.

Lemma passive_step_same (m m' : Machine) (op : Op) :
  passive op = true -> step m op = Some m' -> sameButPassive m' m.
Proof.
  intros Hpassive Hstep. step_cases Hstep; try discriminate Hpassive;
    repeat split.
Qed.

Lemma step_same (m1 m2 m1' : Machine) (op : Op) :
  sameButPassive m1 m2 -> step m1 op = Some m1' ->
  exists m2', step m2 op = Some m2' /\ sameButPassive m1' m2'.
Proof.
  intros Hsame Hstep.
  destruct m1 as [[dg1 pr1 res1 err1 fi1 us1 n1 cs1 fc1 ce1 dl1 dp1] rs1 fs1].
  destruct m2 as [[dg2 pr2 res2 err2 fi2 us2 n2 cs2 fc2 ce2 dl2 dp2] rs2 fs2].
  same_worlds Hsame.
  destruct op as [| |[|f rest]|[[|f rest]|]|url fname
                 |i [response|reason]|i [blob|reason]| |];
    cbn [step world runs fetches] in *;
    try (destruct (nth_error _ i) as [p|]; [|discriminate Hstep]);
    try (destruct (body response) as [blob|reason] eqn:Hbody);
    cbv [handleDrop handleFileSelect handleSampleImageClick_settled] in *;
    try rewrite Hbody in *;
    cbv [processImage exec handleDownload handleDragOver handleDragLeave
         handleSampleImageClick handleReset bind ret modify snd
         setIsDragging setError setIsProcessing setProcessedImage
         clearFileInput createObjectURL callRemoveBackground callFetch
         consoleError clickLink preventDefault newFile] in *;
    cbn [isProcessing processedImage error fileInput objectURLs urlSerial
         removeBackgroundCalls fetchCalls consoleErrors downloads
         defaultsPrevented isDragging negb] in *;
    try (destruct (isImageType _); [destruct (isTooLarge _)|]; cbn [negb] in * );
    try (destruct res2);
    injection Hstep as <-; eexists; (split; [reflexivity | repeat split]).
Qed.

(** X16: drag-over, drag-leave and download events start nothing: taking them
    out of any sequence of events leaves the same promises awaited and the
    same state, calls, URLs and log; only the dragging flag, the count of
    prevented defaults and the list of downloads can differ. *)
Theorem X16_passive_events_start_nothing (ops : list Op) (m m' : Machine) :
  gatedSteps anyOp m ops = Some m' ->
  exists m'',
    gatedSteps anyOp m (filter (fun op => negb (passive op)) ops) = Some m'' /\
    sameButPassive m' m''.
Proof.
  assert (Hgen : forall ops m1 m2 m1',
             sameButPassive m1 m2 ->
             gatedSteps anyOp m1 ops = Some m1' ->
             exists m2',
               gatedSteps anyOp m2 (filter (fun op => negb (passive op)) ops)
                 = Some m2' /\ sameButPassive m1' m2').
  { clear. induction ops as [|op ops IH]; intros m1 m2 m1' Hsame Hrun.
    - injection Hrun as <-. exists m2. split; [reflexivity | exact Hsame].
    - cbn [gatedSteps anyOp] in Hrun.
      destruct (step m1 op) as [m1a|] eqn:Hstep; [|discriminate].
      cbn [filter]. destruct (passive op) eqn:Hpassive; cbn [negb].
      + apply (IH m1a m2 m1'); [|exact Hrun].
        pose proof (passive_step_same m1 m1a op Hpassive Hstep) as Hback.
        unfold sameButPassive in *. intuition congruence.
      + destruct (step_same m1 m2 m1a op Hsame Hstep) as (m2a & Hstep2 & Hsame2).
        cbn [gatedSteps anyOp]. rewrite Hstep2.
        exact (IH m1a m2a m1' Hsame2 Hrun). }
  intros Hrun. apply (Hgen ops m m m'); [|exact Hrun].
  repeat split.
Qed.

Lemma X16_passive_events_start_nothing_witness :
  exists m' m'',
    gatedSteps anyOp initialMachine Scenario.visit = Some m' /\
    gatedSteps anyOp initialMachine
      [Drop [Scenario.notes];
       FileSelect (Some [Scenario.photo]);
       RunSettles 0 (Fulfilled Scenario.cutout)] = Some m'' /\
    sameButPassive m' m''.
Proof.
  assert (Hvisit : exists m', gatedSteps anyOp initialMachine Scenario.visit = Some m').
  { eexists. vm_compute. reflexivity. }
  destruct Hvisit as [m' Hvisit].
  destruct (X16_passive_events_start_nothing Scenario.visit initialMachine m' Hvisit)
    as (m'' & Hrun & Hsame).
  exists m', m''. split; [exact Hvisit | split; [exact Hrun | exact Hsame]].
Defined.
